(** * miceinput.py: echo of the legacy 3-byte mouse records

    A shallow embedding of [files/home/miceinput.py].  The script opens
    [/dev/input/<device>], and in an endless loop reads three bytes, decodes
    them into button flags and two signed deltas, and prints one line.

    Python values are modelled as the script has them: [bytes] as
    [list byte], [int] as [Z], [str] as [string] holding the UTF-8 encoding,
    the file object and standard output as an explicit world threaded through
    a state-and-exception monad.  An exception keeps the world it was raised
    in.

    Standard output is taken to be UTF-8, the encoding of the script's
    output, wherever [print] and [getMouseEvent] are used; [print_on] and
    [getMouseEvent_on] take the encoding of standard output as an argument
    and cover the encodings that cannot hold the arrow glyphs. *)

From Stdlib Require Import ZArith NArith List String Ascii Bool Lia.
From Stdlib Require Import DecimalString.
From Stdlib.Strings Require Import Byte.
Import ListNotations.

Local Open Scope string_scope.
Local Open Scope Z_scope.

(** ** The world: an open file and standard output *)

(** Exceptions the script can die of. *)
Inductive exn : Type :=
| IndexError          (* [buf[0]] on an empty buffer *)
| StructError         (* [struct.unpack] on a buffer of the wrong size *)
| OSError             (* the read itself failed *)
| FileNotFoundError   (* [open] of a missing path *)
| UnicodeEncodeError. (* [print] of text that standard output cannot encode *)

(** How the byte source ends once its pending bytes are used up. *)
Inductive closing : Type :=
| Eof
| IoFailure.

Record File : Type := mkFile {
  pending : list byte;   (* bytes the device still delivers, in order *)
  ending : closing
}.

Record World : Type := mkWorld {
  file : File;
  stdout : list string   (* one entry per call of [print], oldest first *)
}.

(** ** State and exception monad *)

Definition M (A : Type) : Type := World -> (exn + A) * World.

Definition ret {A : Type} (a : A) : M A := fun w => (inr a, w).

Definition raise {A : Type} (e : exn) : M A := fun w => (inl e, w).

Definition bind {A B : Type} (m : M A) (k : A -> M B) : M B :=
  fun w =>
    match m w with
    | (inl e, w') => (inl e, w')
    | (inr a, w') => k a w'
    end.

Notation "x <- m ;; k" := (bind m (fun x => k))
  (at level 61, m at next level, right associativity).
Notation "m ;;; k" := (bind m (fun _ => k))
  (at level 61, right associativity).

(** ** Python primitives used by the script *)

(** The integer a byte stands for, [0 .. 255]. *)
Definition int_of_byte (b : byte) : Z := Z.of_N (Byte.to_N b).

(** [file.read(n)] on a buffered binary file: blocks until [n] bytes are
    there; at end of stream it returns the bytes that are left (possibly
    none); a failing source raises. *)
Definition file_read (n : nat) : M (list byte) :=
  fun w =>
    let f := file w in
    if (n <=? List.length (pending f))%nat then
      (inr (firstn n (pending f)),
       mkWorld (mkFile (skipn n (pending f)) (ending f)) (stdout w))
    else
      match ending f with
      | Eof => (inr (pending f), mkWorld (mkFile [] Eof) (stdout w))
      | IoFailure => (inl OSError, w)
      end.

(** [print(s)] on a UTF-8 standard output, which encodes any text: one more
    line on standard output.  See [print_on] for other encodings. *)
Definition print (s : string) : M unit :=
  fun w => (inr tt, mkWorld (file w) (stdout w ++ [s])%list).

(** [buf[i]] on [bytes]. *)
Definition getitem (buf : list byte) (i : nat) : M Z :=
  match nth_error buf i with
  | Some b => ret (int_of_byte b)
  | None => raise IndexError
  end.

(** Format character [b] of [struct]: a signed char. *)
Definition unpack_b (b : byte) : Z :=
  let v := int_of_byte b in
  if v <? 128 then v else v - 256.

(** [struct.unpack("bb", data)]: exactly two bytes, or [struct.error]. *)
Definition unpack_bb (data : list byte) : M (Z * Z) :=
  match data with
  | [b1; b2] => ret (unpack_b b1, unpack_b b2)
  | _ => raise StructError
  end.

(** [str(n)] for an [int], as ["{}".format(n)] renders it. *)
Definition str (n : Z) : string := NilZero.string_of_int (Z.to_int n).

(** ["{} {}  (x: {}, y: {})".format(a, b, x, y)]. *)
Definition format (a b : string) (x y : Z) : string :=
  a ++ " " ++ b ++ "  (x: " ++ str x ++ ", y: " ++ str y ++ ")".

(** ** The decoded event: the locals of [getMouseEvent] *)

Module MouseEvent.

Record t : Type := mk {
  button : Z;
  bLeft : Z;          (* [button & 0x1], an [int] *)
  bMiddle : bool;
  bRight : bool;
  x : Z;
  y : Z;
  xarrow : string;
  yarrow : string
}.

End MouseEvent.

(** ** getMouseEvent *)

(** The Python function returns [None]; the model returns its locals so
    that theorems can speak of the event that was decoded. *)
Definition getMouseEvent : M MouseEvent.t :=
  buf <- file_read 3 ;;
  button <- getitem buf 0 ;;
  let bLeft := Z.land button 1 in
  let bMiddle := 0 <? Z.land button 4 in
  let bRight := 0 <? Z.land button 2 in
  xy <- unpack_bb (skipn 1 buf) ;;
  let '(x, y) := xy in
  let xarrow := " " in
  let yarrow := " " in
  let xarrow := if x <? 0 then "←" else if 0 <? x then "→" else xarrow in
  let yarrow := if y <? 0 then "↑" else if 0 <? y then "↓" else yarrow in
  print (format xarrow yarrow x y) ;;;
  ret (MouseEvent.mk button bLeft bMiddle bRight x y xarrow yarrow).

(** ** The main program *)

(** [sys.argv[1] if len(sys.argv) > 1 else "mice"]. *)
Definition device (argv : list string) : string :=
  if (1 <? List.length argv)%nat then nth 1 argv "" else "mice".

(** The path given to [open]. *)
Definition device_path (argv : list string) : string :=
  "/dev/input/" ++ device argv.

(** Mode given to [open]. *)
Definition open_mode : string := "rb".

(** The device nodes that exist, by path and mode. *)
Definition FileSystem : Type := string -> string -> option File.

(** [while True: getMouseEvent(file)].  The loop has no exit of its own: it
    ends only by an exception.  [fuel] bounds the iterations; [None] means
    the loop was still running when the fuel ran out.  The events decoded by
    the successive calls are collected, oldest first. *)
Fixpoint while_True (fuel : nat) (w : World)
  : option (list MouseEvent.t * exn * World) :=
  match fuel with
  | O => None
  | S fuel' =>
      match getMouseEvent w with
      | (inl e, w') => Some ([], e, w')
      | (inr ev, w') =>
          match while_True fuel' w' with
          | Some (evs, e, w'') => Some (ev :: evs, e, w'')
          | None => None
          end
      end
  end.

(** Exit status of the interpreter after an uncaught exception. *)
Definition exit_status (e : exn) : Z := 1.

(** The script run on [argv] against a file system: what was printed and the
    exit status, or [None] while still running. *)
Definition main (fuel : nat) (fs : FileSystem) (argv : list string)
  : option (list string * exn * Z) :=
  match fs (device_path argv) open_mode with
  | None => Some ([], FileNotFoundError, exit_status FileNotFoundError)
  | Some f =>
      match while_True fuel (mkWorld f []) with
      | Some (_, e, w) => Some (stdout w, e, exit_status e)
      | None => None
      end
  end.

(** ** Reference definitions used by the statements *)

(** Two's-complement reading of an 8-bit value. *)
Definition signed8 (v : Z) : Z := (v + 128) mod 256 - 128.

(** The glyph for one axis: [neg] for a negative delta, [pos] for a positive
    one, a blank otherwise. *)
Definition glyph (neg pos : string) (d : Z) : string :=
  if d <? 0 then neg else if 0 <? d then pos else " ".

(** Closed form of the locals of [getMouseEvent] on a complete record. *)
Definition event_of_record (r : byte * byte * byte) : MouseEvent.t :=
  let '(b0, b1, b2) := r in
  let button := int_of_byte b0 in
  MouseEvent.mk button (Z.land button 1)
    (0 <? Z.land button 4) (0 <? Z.land button 2)
    (unpack_b b1) (unpack_b b2)
    (glyph "←" "→" (unpack_b b1)) (glyph "↑" "↓" (unpack_b b2)).

(** The line printed for an event. *)
Definition line_of_event (ev : MouseEvent.t) : string :=
  format (MouseEvent.xarrow ev) (MouseEvent.yarrow ev)
    (MouseEvent.x ev) (MouseEvent.y ev).

(** The complete records of a byte sequence: successive windows of three
    bytes; an incomplete tail is left out. *)
Fixpoint windows (l : list byte) : list (byte * byte * byte) :=
  match l with
  | b0 :: b1 :: b2 :: rest => (b0, b1, b2) :: windows rest
  | _ => []
  end.

(** The bytes of a record, in order. *)
Definition bytes_of_record (r : byte * byte * byte) : list byte :=
  let '(b0, b1, b2) := r in [b0; b1; b2].

(** No line feed inside a string. *)
Fixpoint no_newline (s : string) : bool :=
  match s with
  | EmptyString => true
  | String c s' => negb (Ascii.eqb c "010"%char) && no_newline s'
  end.

(** A world whose file still holds [l] and then ends as [cl]. *)
Definition world_of (l : list byte) (cl : closing) (out : list string)
  : World :=
  mkWorld (mkFile l cl) out.

(** What is left of a byte sequence after its complete records. *)
Fixpoint leftover (l : list byte) : list byte :=
  match l with
  | _ :: _ :: _ :: rest => leftover rest
  | _ => l
  end.

(** The exception that ends the script when fewer than three bytes, [tail],
    are left and the source then ends as [cl]. *)
Definition final_exn (tail : list byte) (cl : closing) : exn :=
  match cl with
  | IoFailure => OSError
  | Eof => match tail with [] => IndexError | _ => StructError end
  end.

(** The world the script dies in, with [out] printed so far. *)
Definition final_world (tail : list byte) (cl : closing) (out : list string)
  : World :=
  match cl with
  | IoFailure => world_of tail IoFailure out
  | Eof => world_of [] Eof out
  end.

(** Every byte value, in increasing order. *)
Definition all_bytes : list byte :=
  map (fun n => match Byte.of_N (N.of_nat n) with
                | Some b => b
                | None => x00
                end)
      (seq 0 256).

(** A UTF-8 continuation byte, [10xxxxxx]. *)
Definition is_continuation (c : ascii) : bool :=
  let n := nat_of_ascii c in
  ((128 <=? n) && (n <? 192))%nat.

(** Number of characters of a UTF-8 string: its bytes that are not
    continuation bytes. *)
Fixpoint utf8_length (s : string) : nat :=
  match s with
  | EmptyString => O
  | String c s' =>
      if is_continuation c then utf8_length s' else S (utf8_length s')
  end.

(** What follows the first [c] of a string. *)
Fixpoint after (c : ascii) (s : string) : string :=
  match s with
  | EmptyString => EmptyString
  | String d s' => if Ascii.eqb c d then s' else after c s'
  end.

(** What precedes the first [c] of a string. *)
Fixpoint before (c : ascii) (s : string) : string :=
  match s with
  | EmptyString => EmptyString
  | String d s' =>
      if Ascii.eqb c d then EmptyString else String d (before c s')
  end.

(** A decimal numeral read back as an integer. *)
Definition int_of_str (s : string) : option Z :=
  option_map Z.of_int (NilZero.int_of_string s).

(** A reader of printed lines: the number after the first colon and the
    number after the second one. *)
Definition deltas_of_line (s : string) : option (Z * Z) :=
  let s1 := after " " (after ":" s) in
  let s2 := after " " (after ":" s1) in
  match int_of_str (before "," s1), int_of_str (before ")" s2) with
  | Some x, Some y => Some (x, y)
  | _, _ => None
  end.

(** The reader gives back the deltas of the line printed for the bytes
    [b1], [b2]. *)
Definition reads_back (b1 b2 : byte) : bool :=
  match deltas_of_line (line_of_event (event_of_record (x00, b1, b2))) with
  | Some (x, y) => (x =? unpack_b b1) && (y =? unpack_b b2)
  | None => false
  end.

(** ** Standard output in an encoding that may lack the glyphs *)

(** [sys.stdout.encoding], fixed when the interpreter starts. *)
Inductive Encoding : Type :=
| Utf8
| Latin1
| Ascii.

(** Whether a byte of UTF-8 text belongs to a character that the encoding
    has: every byte for UTF-8; the one-byte characters for ASCII; for
    Latin-1 also the two-byte characters up to U+00FF, whose lead byte is
    [C2] or [C3]. *)
Definition byte_ok (enc : Encoding) (c : ascii) : bool :=
  let n := nat_of_ascii c in
  match enc with
  | Utf8 => true
  | Ascii => (n <? 128)%nat
  | Latin1 =>
      ((n <? 128) || is_continuation c || (n =? 194) || (n =? 195))%nat
  end.

(** Every byte of a string passes a test. *)
Fixpoint string_forall (p : ascii -> bool) (s : string) : bool :=
  match s with
  | EmptyString => true
  | String c s' => p c && string_forall p s'
  end.

(** Whether the encoding can encode a text. *)
Definition encodable (enc : Encoding) (s : string) : bool :=
  string_forall (byte_ok enc) s.

(** [print(s)] on a standard output of encoding [enc], with the strict error
    handler it has by default: text that cannot be encoded raises and nothing
    is written. *)
Definition print_on (enc : Encoding) (s : string) : M unit :=
  if encodable enc s then print s else raise UnicodeEncodeError.

(** [getMouseEvent] run with a standard output of encoding [enc]. *)
Definition getMouseEvent_on (enc : Encoding) : M MouseEvent.t :=
  buf <- file_read 3 ;;
  button <- getitem buf 0 ;;
  let bLeft := Z.land button 1 in
  let bMiddle := 0 <? Z.land button 4 in
  let bRight := 0 <? Z.land button 2 in
  xy <- unpack_bb (skipn 1 buf) ;;
  let '(x, y) := xy in
  let xarrow := " " in
  let yarrow := " " in
  let xarrow := if x <? 0 then "←" else if 0 <? x then "→" else xarrow in
  let yarrow := if y <? 0 then "↑" else if 0 <? y then "↓" else yarrow in
  print_on enc (format xarrow yarrow x y) ;;;
  ret (MouseEvent.mk button bLeft bMiddle bRight x y xarrow yarrow).

(** ** Basic facts *)

Lemma int_of_byte_range (b : byte) : 0 <= int_of_byte b < 256.
Proof.
  unfold int_of_byte. pose proof (Byte.to_N_bounded b). lia.
Qed.

Lemma unpack_b_signed8 (b : byte) : unpack_b b = signed8 (int_of_byte b).
Proof.
  unfold unpack_b, signed8.
  pose proof (int_of_byte_range b) as Hr.
  destruct (Z.ltb_spec (int_of_byte b) 128) as [Hlt | Hge].
  - rewrite Z.mod_small; lia.
  - rewrite <- (Z.mod_unique (int_of_byte b + 128) 256 1
                               (int_of_byte b - 128)); lia.
Qed.

Lemma unpack_b_range (b : byte) : -128 <= unpack_b b <= 127.
Proof.
  unfold unpack_b. pose proof (int_of_byte_range b).
  destruct (Z.ltb_spec (int_of_byte b) 128); lia.
Qed.

Lemma land_pos_nonzero (v m : Z) :
  0 <= v -> (0 <? Z.land v m) = negb (Z.land v m =? 0).
Proof.
  intros Hv.
  assert (0 <= Z.land v m) as Hnn by (apply Z.land_nonneg; now left).
  destruct (Z.eqb_spec (Z.land v m) 0) as [-> | Hne]; cbn.
  - reflexivity.
  - apply Z.ltb_lt. lia.
Qed.

Lemma land_1_b2z (v : Z) : Z.land v 1 = Z.b2z (negb (Z.land v 1 =? 0)).
Proof.
  change 1 with (Z.ones 1) at 1 2.
  rewrite Z.land_ones by lia. change (2 ^ 1) with 2.
  pose proof (Z.mod_pos_bound v 2 ltac:(lia)) as Hb.
  destruct (Z.eqb_spec (v mod 2) 0) as [-> | Hne]; cbn; lia.
Qed.

(** [getMouseEvent] on a file that still holds a complete record. *)
Lemma getMouseEvent_record (b0 b1 b2 : byte) (rest : list byte)
    (cl : closing) (out : list string) :
  getMouseEvent (world_of (b0 :: b1 :: b2 :: rest) cl out) =
  (inr (event_of_record (b0, b1, b2)),
   world_of rest cl (out ++ [line_of_event (event_of_record (b0, b1, b2))])).
Proof. reflexivity. Qed.

Lemma glyph_cases (neg pos : string) (d : Z) :
  (d < 0 /\ glyph neg pos d = neg) \/
  (d = 0 /\ glyph neg pos d = " ") \/
  (0 < d /\ glyph neg pos d = pos).
Proof.
  unfold glyph.
  destruct (Z.ltb_spec d 0) as [Hneg | Hnn]; [now left | right].
  destruct (Z.ltb_spec 0 d) as [Hpos | Hnp]; [now right | left].
  split; [lia | reflexivity].
Qed.

(** ** Decoding of one record *)

(** C1.  For every byte triple [(b0, b1, b2)] the decoded event has
    [bLeft] equal to the truth value of [b0 & 1 != 0] (as the integer 0 or 1
    that Python's [==] identifies with [False] and [True]), [bRight] equal to
    [b0 & 2 != 0], [bMiddle] equal to [b0 & 4 != 0], and [x], [y] equal to the
    signed 8-bit readings of [b1] and [b2]. *)
Theorem decode_fields (b0 b1 b2 : byte) (rest : list byte)
    (cl : closing) (out : list string) :
  exists ev w',
    getMouseEvent (world_of (b0 :: b1 :: b2 :: rest) cl out) = (inr ev, w') /\
    MouseEvent.bLeft ev = Z.b2z (negb (Z.land (int_of_byte b0) 1 =? 0)) /\
    MouseEvent.bRight ev = negb (Z.land (int_of_byte b0) 2 =? 0) /\
    MouseEvent.bMiddle ev = negb (Z.land (int_of_byte b0) 4 =? 0) /\
    MouseEvent.x ev = signed8 (int_of_byte b1) /\
    MouseEvent.y ev = signed8 (int_of_byte b2).
Proof.
  eexists. eexists. split; [apply getMouseEvent_record |].
  pose proof (int_of_byte_range b0) as [H0 _].
  cbn [event_of_record MouseEvent.bLeft MouseEvent.bRight MouseEvent.bMiddle
       MouseEvent.x MouseEvent.y].
  repeat split.
  - apply land_1_b2z.
  - now apply land_pos_nonzero.
  - now apply land_pos_nonzero.
  - apply unpack_b_signed8.
  - apply unpack_b_signed8.
Qed.

(** C2, as the script prints it.  For every complete record the printed
    line is the horizontal glyph (leftward, blank or rightward; blank exactly
    when [x = 0]), a space, the vertical glyph (upward, blank or downward;
    blank exactly when [y = 0]), two spaces, and [(x: <x>, y: <y>)] with the
    decimal values of the deltas; the bytes [00 05 00] print the rightward
    glyph followed by four spaces and [(x: 5, y: 0)]. *)
Theorem printed_line_layout :
  (forall (b0 b1 b2 : byte) (rest : list byte) (cl : closing)
          (out : list string),
     exists ev gx gy,
       getMouseEvent (world_of (b0 :: b1 :: b2 :: rest) cl out) =
       (inr ev,
        world_of rest cl
          (out ++ [gx ++ " " ++ gy ++ "  (x: " ++ str (MouseEvent.x ev)
                      ++ ", y: " ++ str (MouseEvent.y ev) ++ ")"])) /\
       MouseEvent.x ev = unpack_b b1 /\ MouseEvent.y ev = unpack_b b2 /\
       (gx = "←" \/ gx = " " \/ gx = "→") /\
       (gx = "←" <-> MouseEvent.x ev < 0) /\
       (gx = " " <-> MouseEvent.x ev = 0) /\
       (gx = "→" <-> 0 < MouseEvent.x ev) /\
       (gy = "↑" \/ gy = " " \/ gy = "↓") /\
       (gy = "↑" <-> MouseEvent.y ev < 0) /\
       (gy = " " <-> MouseEvent.y ev = 0) /\
       (gy = "↓" <-> 0 < MouseEvent.y ev)) /\
  stdout (snd (getMouseEvent (world_of [x00; x05; x00] Eof []))) =
  ["→    (x: 5, y: 0)"].
Proof.
  split; [| reflexivity].
  intros b0 b1 b2 rest cl out.
  exists (event_of_record (b0, b1, b2)).
  exists (glyph "←" "→" (unpack_b b1)), (glyph "↑" "↓" (unpack_b b2)).
  split; [apply getMouseEvent_record |].
  cbn [event_of_record MouseEvent.x MouseEvent.y].
  do 2 (split; [reflexivity |]).
  destruct (glyph_cases "←" "→" (unpack_b b1))
    as [[Hx ->] | [[Hx ->] | [Hx ->]]];
  destruct (glyph_cases "↑" "↓" (unpack_b b2))
    as [[Hy ->] | [[Hy ->] | [Hy ->]]];
  repeat split; intros; try lia; try discriminate; auto.
Qed.

(** C2 as stated fails: the bytes [00 05 00] do not print the rightward
    glyph followed by three spaces. *)
Lemma printed_line_three_spaces_refuted :
  stdout (snd (getMouseEvent (world_of [x00; x05; x00] Eof []))) <>
  ["→   (x: 5, y: 0)"].
Proof. vm_compute. discriminate. Qed.

(** C3.  The button flags are decoded and then dropped: with all three
    buttons held and no motion, bytes [07 00 00], the flags are set, yet the
    line printed is the one printed for [00 00 00]. *)
Theorem buttons_not_printed :
  exists ev w' ev0 w0',
    getMouseEvent (world_of [x07; x00; x00] Eof []) = (inr ev, w') /\
    getMouseEvent (world_of [x00; x00; x00] Eof []) = (inr ev0, w0') /\
    MouseEvent.bLeft ev = 1 /\ MouseEvent.bMiddle ev = true /\
    MouseEvent.bRight ev = true /\
    MouseEvent.bLeft ev0 = 0 /\ MouseEvent.bMiddle ev0 = false /\
    MouseEvent.bRight ev0 = false /\
    stdout w' = ["     (x: 0, y: 0)"] /\ stdout w0' = stdout w'.
Proof.
  do 4 eexists.
  split; [apply getMouseEvent_record |].
  split; [apply getMouseEvent_record |].
  repeat split.
Qed.

(** C4.  Boundary values of the second byte: [0x80] decodes to [x = -128]
    with the leftward glyph, [0x7F] to [x = 127] with the rightward glyph,
    and [0x00] gives a blank horizontal glyph. *)
Theorem boundary_bytes (b0 b2 : byte) (rest : list byte)
    (cl : closing) (out : list string) :
  (exists ev,
     getMouseEvent (world_of (b0 :: x80 :: b2 :: rest) cl out) =
     (inr ev,
      world_of rest cl
        (out ++ [format "←" (MouseEvent.yarrow ev) (-128) (MouseEvent.y ev)]))
     /\ MouseEvent.x ev = -128 /\ MouseEvent.xarrow ev = "←") /\
  (exists ev,
     getMouseEvent (world_of (b0 :: x7f :: b2 :: rest) cl out) =
     (inr ev,
      world_of rest cl
        (out ++ [format "→" (MouseEvent.yarrow ev) 127 (MouseEvent.y ev)]))
     /\ MouseEvent.x ev = 127 /\ MouseEvent.xarrow ev = "→") /\
  (exists ev,
     getMouseEvent (world_of (b0 :: x00 :: b2 :: rest) cl out) =
     (inr ev,
      world_of rest cl
        (out ++ [format " " (MouseEvent.yarrow ev) 0 (MouseEvent.y ev)]))
     /\ MouseEvent.x ev = 0 /\ MouseEvent.xarrow ev = " ").
Proof.
  split; [| split].
  - exists (event_of_record (b0, x80, b2)). repeat split.
  - exists (event_of_record (b0, x7f, b2)). repeat split.
  - exists (event_of_record (b0, x00, b2)). repeat split.
Qed.

(** C6.  The bytes [01 FB 03] decode to [x = -5], [y = 3] with the left
    button pressed, and print the leftward and downward glyphs with
    [x: -5, y: 3]. *)
Theorem scenario_left_down :
  getMouseEvent (world_of [x01; xfb; x03] Eof []) =
  (inr (MouseEvent.mk 1 1 false false (-5) 3 "←" "↓"),
   world_of [] Eof ["← ↓  (x: -5, y: 3)"]).
Proof. reflexivity. Qed.

(** ** Short reads *)

Lemma world_eta (w : World) :
  w = world_of (pending (file w)) (ending (file w)) (stdout w).
Proof. destruct w as [[l cl] out]. reflexivity. Qed.

(** [getMouseEvent] on a file that holds fewer than three bytes. *)
Lemma getMouseEvent_short (l : list byte) (cl : closing) (out : list string) :
  (List.length l < 3)%nat ->
  getMouseEvent (world_of l cl out) =
  (inl (final_exn l cl), final_world l cl out).
Proof.
  intros Hlen.
  destruct l as [| a [| b [| c l]]]; cbn in Hlen; try lia;
    destruct cl; reflexivity.
Qed.

Lemma while_True_S (fuel : nat) (w : World) :
  while_True (S fuel) w =
  match getMouseEvent w with
  | (inl e, w') => Some ([], e, w')
  | (inr ev, w') =>
      match while_True fuel w' with
      | Some (evs, e, w'') => Some (ev :: evs, e, w'')
      | None => None
      end
  end.
Proof. reflexivity. Qed.

(** ** Records of a byte sequence *)

(** Induction over a byte sequence three bytes at a time. *)
Lemma list_ind3 (P : list byte -> Prop) :
  P [] -> (forall a, P [a]) -> (forall a b, P [a; b]) ->
  (forall a b c l, P l -> P (a :: b :: c :: l)) ->
  forall l, P l.
Proof.
  intros H0 H1 H2 H3 l.
  assert (forall n l', (List.length l' <= n)%nat -> P l') as Hn.
  { induction n as [| n IHn]; intros l' Hlen.
    - destruct l'; [exact H0 | cbn in Hlen; lia].
    - destruct l' as [| a [| b [| c l']]]; auto.
      apply H3, IHn. cbn in Hlen. lia. }
  apply (Hn (List.length l)). lia.
Qed.

Lemma windows_leftover (l : list byte) :
  l = (flat_map bytes_of_record (windows l) ++ leftover l)%list.
Proof.
  induction l as [| a | a b | a b c l IH] using list_ind3; try reflexivity.
  cbn [windows leftover flat_map bytes_of_record app]. now rewrite <- IH.
Qed.

Lemma leftover_short (l : list byte) : (List.length (leftover l) < 3)%nat.
Proof.
  induction l as [| a | a b | a b c l IH] using list_ind3; cbn; lia.
Qed.

Lemma windows_length (l : list byte) :
  List.length (windows l) = (List.length l / 3)%nat.
Proof.
  induction l as [| a | a b | a b c l IH] using list_ind3; try reflexivity.
  cbn [windows List.length]. rewrite IH.
  change (S (S (S (List.length l)))) with (1 * 3 + List.length l)%nat.
  now rewrite Nat.div_add_l.
Qed.

(** ** The loop on a finite source *)

(** With more fuel than complete records, the loop decodes each record in
    turn, prints its line, and dies on the read after the last one. *)
Lemma while_True_run (fuel : nat) :
  forall (l : list byte) (cl : closing) (out : list string),
    (List.length (windows l) < fuel)%nat ->
    while_True fuel (world_of l cl out) =
    Some (map event_of_record (windows l),
          final_exn (leftover l) cl,
          final_world (leftover l) cl
            (out ++ map (fun r => line_of_event (event_of_record r))
                        (windows l))).
Proof.
  induction fuel as [| fuel IH]; intros l cl out Hfuel; [lia |].
  rewrite while_True_S.
  destruct l as [| a [| b [| c l]]].
  1-3: rewrite getMouseEvent_short by (cbn; lia);
       cbn [windows leftover map]; now rewrite app_nil_r.
  rewrite getMouseEvent_record.
  cbn [windows List.length] in Hfuel.
  rewrite IH by lia.
  cbn [windows leftover map]. now rewrite <- app_assoc.
Qed.

Lemma stdout_final_world (tail : list byte) (cl : closing)
    (out : list string) :
  stdout (final_world tail cl out) = out.
Proof. destruct cl; reflexivity. Qed.

Lemma firstn3_inv (l : list byte) (b0 b1 b2 : byte) :
  firstn 3 l = [b0; b1; b2] -> exists rest, l = b0 :: b1 :: b2 :: rest.
Proof.
  destruct l as [| a [| b [| c rest]]]; cbn; intros H; try discriminate.
  injection H as -> -> ->. now exists rest.
Qed.

Lemma windows_of_records (recs : list (byte * byte * byte))
    (tail : list byte) :
  (List.length tail < 3)%nat ->
  windows (flat_map bytes_of_record recs ++ tail) = recs /\
  leftover (flat_map bytes_of_record recs ++ tail) = tail.
Proof.
  intros Htail.
  induction recs as [| [[b0 b1] b2] recs [IHw IHl]].
  - destruct tail as [| a [| b [| c tail]]]; cbn in *; try lia; now split.
  - cbn [flat_map bytes_of_record app windows leftover].
    rewrite IHw, IHl. now split.
Qed.

Lemma windows_nth (l : list byte) :
  forall (i : nat) (b0 b1 b2 : byte),
    nth_error (windows l) i = Some (b0, b1, b2) ->
    nth_error l (3 * i) = Some b0 /\
    nth_error l (3 * i + 1) = Some b1 /\
    nth_error l (3 * i + 2) = Some b2.
Proof.
  induction l as [| a | a b | a b c l IH] using list_ind3;
    intros i b0 b1 b2 Hi.
  1-3: destruct i; discriminate.
  destruct i as [| i]; cbn [windows nth_error] in Hi.
  - injection Hi as -> -> ->. repeat split.
  - destruct (IH i b0 b1 b2 Hi) as (H0 & H1 & H2).
    replace (3 * S i)%nat with (S (S (S (3 * i)))) by lia.
    cbn [Nat.add nth_error]. auto.
Qed.

Lemma no_newline_app (s t : string) :
  no_newline (s ++ t) = no_newline s && no_newline t.
Proof.
  induction s as [| c s IH]; cbn; [reflexivity |].
  now rewrite IH, andb_assoc.
Qed.

Lemma no_newline_str_unpack_b (b : byte) : no_newline (str (unpack_b b)) = true.
Proof. destruct b; reflexivity. Qed.

Lemma no_newline_glyph (neg pos : string) (d : Z) :
  no_newline neg = true -> no_newline pos = true ->
  no_newline (glyph neg pos d) = true.
Proof.
  intros Hneg Hpos.
  destruct (glyph_cases neg pos d) as [[_ ->] | [[_ ->] | [_ ->]]]; auto.
Qed.

Lemma no_newline_line (r : byte * byte * byte) :
  no_newline (line_of_event (event_of_record r)) = true.
Proof.
  destruct r as [[b0 b1] b2].
  unfold line_of_event, format.
  cbn [event_of_record MouseEvent.xarrow MouseEvent.yarrow
       MouseEvent.x MouseEvent.y].
  repeat rewrite no_newline_app.
  rewrite !no_newline_str_unpack_b.
  rewrite !no_newline_glyph by reflexivity.
  reflexivity.
Qed.

(** ** Determinism *)

(** C5.  Two runs of the decoder whose next three bytes are the same, in
    whatever worlds (other pending bytes, other ending of the source, other
    earlier output), decode the same event and print the same line. *)
Theorem decode_deterministic (w1 w2 : World) (b0 b1 b2 : byte) :
  firstn 3 (pending (file w1)) = [b0; b1; b2] ->
  firstn 3 (pending (file w2)) = [b0; b1; b2] ->
  exists ev line w1' w2',
    getMouseEvent w1 = (inr ev, w1') /\
    getMouseEvent w2 = (inr ev, w2') /\
    stdout w1' = (stdout w1 ++ [line])%list /\
    stdout w2' = (stdout w2 ++ [line])%list.
Proof.
  intros H1 H2.
  apply firstn3_inv in H1 as [rest1 E1].
  apply firstn3_inv in H2 as [rest2 E2].
  rewrite (world_eta w1), (world_eta w2), E1, E2.
  rewrite !getMouseEvent_record.
  do 4 eexists. repeat split; reflexivity.
Qed.

Lemma decode_deterministic_witness :
  exists ev line w1' w2',
    getMouseEvent (world_of [x01; xfb; x03; x04] Eof ["earlier"]) =
      (inr ev, w1') /\
    getMouseEvent (world_of [x01; xfb; x03] IoFailure []) = (inr ev, w2') /\
    stdout w1' = ["earlier"; line] /\
    stdout w2' = [line].
Proof.
  apply (decode_deterministic
           (world_of [x01; xfb; x03; x04] Eof ["earlier"])
           (world_of [x01; xfb; x03] IoFailure [])
           x01 xfb x03); reflexivity.
Defined.

(** ** Failure of a short read *)

(** C7.  When fewer than three bytes are left for the next record, whether
    the source then ends or fails, the call raises (an [IndexError] or
    [struct.error] at end of stream, an [OSError] on a failing source),
    nothing is printed by it, the loop stops there, and the exit status is
    not zero; a program fed complete records followed by such a tail prints
    the lines of the complete records only. *)
Theorem short_read_is_fatal (w : World) :
  (List.length (pending (file w)) < 3)%nat ->
  exists e w',
    getMouseEvent w = (inl e, w') /\
    e = final_exn (pending (file w)) (ending (file w)) /\
    stdout w' = stdout w /\
    (forall fuel, while_True (S fuel) w = Some ([], e, w')) /\
    exit_status e <> 0 /\
    (forall (fs : FileSystem) (argv : list string)
            (recs : list (byte * byte * byte)) (fuel : nat),
        fs (device_path argv) open_mode =
          Some (mkFile (flat_map bytes_of_record recs ++ pending (file w))
                       (ending (file w))) ->
        (List.length recs < fuel)%nat ->
        main fuel fs argv =
        Some (map (fun r => line_of_event (event_of_record r)) recs,
              e, exit_status e)).
Proof.
  intros Hshort.
  exists (final_exn (pending (file w)) (ending (file w))).
  exists (final_world (pending (file w)) (ending (file w)) (stdout w)).
  assert (getMouseEvent w =
          (inl (final_exn (pending (file w)) (ending (file w))),
           final_world (pending (file w)) (ending (file w)) (stdout w)))
    as Hcall.
  { rewrite (world_eta w) at 1. now apply getMouseEvent_short. }
  split; [exact Hcall |].
  split; [reflexivity |].
  split; [apply stdout_final_world |].
  split; [intros fuel; rewrite while_True_S, Hcall; reflexivity |].
  split; [discriminate |].
  intros fs argv recs fuel Hopen Hfuel.
  unfold main. rewrite Hopen.
  destruct (windows_of_records recs (pending (file w)) Hshort) as [Hw Hl].
  change (mkWorld (mkFile ?l ?cl) ?out) with (world_of l cl out).
  rewrite while_True_run by (rewrite Hw; exact Hfuel).
  rewrite Hw, Hl, stdout_final_world. reflexivity.
Qed.

Lemma short_read_is_fatal_witness :
  exists e w',
    getMouseEvent (world_of [x01; xfb] Eof ["earlier"]) = (inl e, w') /\
    e = StructError /\
    stdout w' = ["earlier"] /\
    (forall fuel,
        while_True (S fuel) (world_of [x01; xfb] Eof ["earlier"]) =
        Some ([], e, w')) /\
    exit_status e <> 0 /\
    (forall (fs : FileSystem) (argv : list string)
            (recs : list (byte * byte * byte)) (fuel : nat),
        fs (device_path argv) open_mode =
          Some (mkFile (flat_map bytes_of_record recs ++ [x01; xfb]) Eof) ->
        (List.length recs < fuel)%nat ->
        main fuel fs argv =
        Some (map (fun r => line_of_event (event_of_record r)) recs,
              e, exit_status e)).
Proof.
  apply (short_read_is_fatal (world_of [x01; xfb] Eof ["earlier"])).
  cbn. lia.
Defined.

(** ** Command line *)

(** C8.  The script takes its device name from the first argument after the
    program name, whatever follows it, and uses [mice] when there is none;
    the path it opens, in mode [rb], is [/dev/input/] followed by that name,
    and no other path of the file system matters to the run. *)
Theorem device_path_resolution :
  device_path [] = "/dev/input/mice" /\
  (forall prog, device_path [prog] = "/dev/input/mice") /\
  (forall prog d rest, device_path (prog :: d :: rest) = "/dev/input/" ++ d) /\
  open_mode = "rb" /\
  (forall fuel (fs1 fs2 : FileSystem) argv,
      fs1 (device_path argv) "rb" = fs2 (device_path argv) "rb" ->
      main fuel fs1 argv = main fuel fs2 argv) /\
  (forall fuel (fs : FileSystem) argv (l : list byte) (cl : closing),
      fs (device_path argv) "rb" = Some (mkFile l cl) ->
      (List.length (windows l) < fuel)%nat ->
      main fuel fs argv =
      Some (map (fun r => line_of_event (event_of_record r)) (windows l),
            final_exn (leftover l) cl, 1)).
Proof.
  repeat split.
  - intros fuel fs1 fs2 argv Hsame. unfold main, open_mode. now rewrite Hsame.
  - intros fuel fs argv l cl Hopen Hfuel.
    unfold main, open_mode. rewrite Hopen.
    change (mkWorld (mkFile l cl) []) with (world_of l cl []).
    rewrite while_True_run by exact Hfuel.
    now rewrite stdout_final_world.
Qed.

(** ** Order and framing of the records *)

(** C9.  On a source delivering the bytes [l], the loop run with enough fuel
    decodes exactly the successive disjoint three-byte windows of [l], in
    order: the events are those of the windows, the lines printed are theirs,
    window [i] is made of bytes [3i], [3i+1], [3i+2], the windows followed by
    a tail of fewer than three bytes make up [l], the tail yields no event,
    and each event is the one a fresh call decodes from its window alone. *)
Theorem records_in_order (l : list byte) (cl : closing) (out : list string)
    (fuel : nat) :
  (List.length l / 3 < fuel)%nat ->
  exists e w',
    while_True fuel (world_of l cl out) =
      Some (map event_of_record (windows l), e, w') /\
    stdout w' =
      (out ++ map (fun r => line_of_event (event_of_record r))
                  (windows l))%list /\
    l = (flat_map bytes_of_record (windows l) ++ leftover l)%list /\
    (List.length (leftover l) < 3)%nat /\
    List.length (windows l) = (List.length l / 3)%nat /\
    (forall i b0 b1 b2,
        nth_error (windows l) i = Some (b0, b1, b2) ->
        nth_error l (3 * i) = Some b0 /\
        nth_error l (3 * i + 1) = Some b1 /\
        nth_error l (3 * i + 2) = Some b2) /\
    (forall r cl' out',
        getMouseEvent (world_of (bytes_of_record r) cl' out') =
        (inr (event_of_record r),
         world_of [] cl' (out' ++ [line_of_event (event_of_record r)]))).
Proof.
  intros Hfuel.
  rewrite <- windows_length in Hfuel.
  do 2 eexists.
  split; [apply while_True_run; exact Hfuel |].
  split; [apply stdout_final_world |].
  split; [apply windows_leftover |].
  split; [apply leftover_short |].
  split; [apply windows_length |].
  split; [apply windows_nth |].
  intros [[b0 b1] b2] cl' out'. apply getMouseEvent_record.
Qed.

Lemma records_in_order_witness :
  exists e w',
    while_True 3 (world_of [x01; xfb; x03; x04; x00; xfe; x00] Eof []) =
      Some ([MouseEvent.mk 1 1 false false (-5) 3 "←" "↓";
             MouseEvent.mk 4 0 true false 0 (-2) " " "↑"], e, w') /\
    stdout w' = ["← ↓  (x: -5, y: 3)"; "  ↑  (x: 0, y: -2)"].
Proof.
  destruct (records_in_order [x01; xfb; x03; x04; x00; xfe; x00] Eof [] 3)
    as (e & w' & Hrun & Hout & _).
  - cbn. lia.
  - exists e, w'. split; [exact Hrun | exact Hout].
Defined.

(** ** Totality on complete records *)

Lemma string_forall_app (p : ascii -> bool) (s t : string) :
  string_forall p (s ++ t) = string_forall p s && string_forall p t.
Proof.
  induction s as [| c s IH]; cbn; [reflexivity |].
  now rewrite IH, andb_assoc.
Qed.

Lemma encodable_utf8 (s : string) : encodable Utf8 s = true.
Proof. induction s as [| c s IH]; [reflexivity | exact IH]. Qed.

Lemma encodable_str_unpack_b (enc : Encoding) (b : byte) :
  encodable enc (str (unpack_b b)) = true.
Proof. destruct enc; destruct b; reflexivity. Qed.

(** Off UTF-8, a glyph can be encoded exactly when it is the blank. *)
Lemma encodable_glyph (enc : Encoding) (d : Z) :
  enc <> Utf8 ->
  encodable enc (glyph "←" "→" d) = (d =? 0) /\
  encodable enc (glyph "↑" "↓" d) = (d =? 0).
Proof.
  intros Henc. unfold glyph.
  destruct (Z.ltb_spec d 0) as [Hneg | Hnn];
    [| destruct (Z.ltb_spec 0 d) as [Hpos | Hnp]];
    destruct (Z.eqb_spec d 0) as [Hz | Hz]; try lia;
    destruct enc; try contradiction; split; reflexivity.
Qed.

Lemma unpack_b_zero (b : byte) : unpack_b b = 0 <-> b = x00.
Proof.
  split; [| now intros ->].
  unfold unpack_b. pose proof (int_of_byte_range b) as Hr.
  destruct (Z.ltb_spec (int_of_byte b) 128); intros Hz; [| lia].
  destruct b; try reflexivity; discriminate Hz.
Qed.

(** Which lines an encoding can hold. *)
Lemma encodable_line (enc : Encoding) (b0 b1 b2 : byte) :
  encodable enc (line_of_event (event_of_record (b0, b1, b2))) = true <->
  enc = Utf8 \/ (b1 = x00 /\ b2 = x00).
Proof.
  destruct (match enc with Utf8 => true | _ => false end) eqn:Hutf.
  - destruct enc; try discriminate.
    rewrite encodable_utf8. split; auto.
  - assert (enc <> Utf8) as Hne by (intros ->; discriminate).
    unfold line_of_event, format, encodable.
    cbn [event_of_record MouseEvent.xarrow MouseEvent.yarrow
         MouseEvent.x MouseEvent.y].
    rewrite !string_forall_app.
    fold (encodable enc (glyph "←" "→" (unpack_b b1))).
    fold (encodable enc (glyph "↑" "↓" (unpack_b b2))).
    fold (encodable enc (str (unpack_b b1))).
    fold (encodable enc (str (unpack_b b2))).
    rewrite (proj1 (encodable_glyph enc (unpack_b b1) Hne)).
    rewrite (proj2 (encodable_glyph enc (unpack_b b2) Hne)).
    rewrite !encodable_str_unpack_b.
    rewrite <- (unpack_b_zero b1), <- (unpack_b_zero b2).
    destruct (Z.eqb_spec (unpack_b b1) 0) as [-> | H1];
    destruct (Z.eqb_spec (unpack_b b2) 0) as [-> | H2];
    destruct enc; try contradiction; cbn; split; intros H; auto;
    try discriminate; destruct H as [H | [Hx Hy]]; try discriminate;
    contradiction.
Qed.

(** [getMouseEvent_on] on a file that still holds a complete record. *)
Lemma getMouseEvent_on_record (enc : Encoding) (b0 b1 b2 : byte)
    (rest : list byte) (cl : closing) (out : list string) :
  getMouseEvent_on enc (world_of (b0 :: b1 :: b2 :: rest) cl out) =
  if encodable enc (line_of_event (event_of_record (b0, b1, b2))) then
    (inr (event_of_record (b0, b1, b2)),
     world_of rest cl
       (out ++ [line_of_event (event_of_record (b0, b1, b2))]))
  else (inl UnicodeEncodeError, world_of rest cl out).
Proof.
  unfold getMouseEvent_on, bind, print_on, line_of_event.
  cbn [file_read world_of file pending List.length Nat.leb firstn skipn
       getitem nth_error ret unpack_bb event_of_record
       MouseEvent.xarrow MouseEvent.yarrow MouseEvent.x MouseEvent.y].
  unfold glyph.
  destruct (encodable enc _); reflexivity.
Qed.

(** [getMouseEvent_on] on a file that holds fewer than three bytes. *)
Lemma getMouseEvent_on_short (enc : Encoding) (l : list byte)
    (cl : closing) (out : list string) :
  (List.length l < 3)%nat ->
  getMouseEvent_on enc (world_of l cl out) =
  (inl (final_exn l cl), final_world l cl out).
Proof.
  intros Hlen.
  destruct l as [| a [| b [| c l]]]; cbn in Hlen; try lia;
    destruct cl; reflexivity.
Qed.



(** * Further properties of the script *)

(** ** What a call that returns has done *)

(** A call returns only on a file that still holds a complete record; it
    then yields the event of that record, consumes its three bytes and
    prints its line. *)
Lemma getMouseEvent_inv (w : World) (ev : MouseEvent.t) (w' : World) :
  getMouseEvent w = (inr ev, w') ->
  exists b0 b1 b2 rest,
    pending (file w) = b0 :: b1 :: b2 :: rest /\
    ev = event_of_record (b0, b1, b2) /\
    w' = world_of rest (ending (file w))
           (stdout w ++ [line_of_event (event_of_record (b0, b1, b2))]).
Proof.
  intros Hcall. rewrite (world_eta w) in Hcall.
  destruct (pending (file w)) as [| b0 [| b1 [| b2 rest]]] eqn:Hpend.
  1-3: rewrite getMouseEvent_short in Hcall by (cbn; lia); discriminate.
  rewrite getMouseEvent_record in Hcall.
  injection Hcall as <- <-. now exists b0, b1, b2, rest.
Qed.

Lemma int_of_byte_inj (b c : byte) : int_of_byte b = int_of_byte c -> b = c.
Proof.
  unfold int_of_byte. intros H. apply N2Z.inj in H.
  pose proof (Byte.of_to_N b) as Hb. rewrite H, Byte.of_to_N in Hb.
  now injection Hb.
Qed.

Lemma unpack_b_inj (b c : byte) : unpack_b b = unpack_b c -> b = c.
Proof.
  unfold unpack_b. intros H. apply int_of_byte_inj.
  pose proof (int_of_byte_range b). pose proof (int_of_byte_range c).
  destruct (Z.ltb_spec (int_of_byte b) 128);
    destruct (Z.ltb_spec (int_of_byte c) 128); lia.
Qed.

Lemma land_low3 (v m : Z) :
  Z.land 7 m = m -> Z.land v m = Z.land (Z.land v 7) m.
Proof. intros Hm. now rewrite <- Z.land_assoc, Hm. Qed.

(** ** The button byte *)

(** X1.  The button byte has no effect on what a call prints or on what it
    leaves in the file: two records that differ only in their first byte
    lead to the same world. *)
Theorem button_byte_not_observable (b0 c0 b1 b2 : byte) (rest : list byte)
    (cl : closing) (out : list string) :
  snd (getMouseEvent (world_of (b0 :: b1 :: b2 :: rest) cl out)) =
  snd (getMouseEvent (world_of (c0 :: b1 :: b2 :: rest) cl out)).
Proof. now rewrite !getMouseEvent_record. Qed.

(** X2.  Only bits 0 to 2 of the button byte reach the flags: two calls
    whose button bytes agree on [& 7] decode the same three flags. *)
Theorem flags_use_low_bits (w1 w2 : World) (ev1 ev2 : MouseEvent.t)
    (w1' w2' : World) :
  getMouseEvent w1 = (inr ev1, w1') ->
  getMouseEvent w2 = (inr ev2, w2') ->
  Z.land (MouseEvent.button ev1) 7 = Z.land (MouseEvent.button ev2) 7 ->
  MouseEvent.bLeft ev1 = MouseEvent.bLeft ev2 /\
  MouseEvent.bMiddle ev1 = MouseEvent.bMiddle ev2 /\
  MouseEvent.bRight ev1 = MouseEvent.bRight ev2.
Proof.
  intros H1 H2 Hlow.
  apply getMouseEvent_inv in H1 as (b0 & b1 & b2 & r1 & _ & -> & _).
  apply getMouseEvent_inv in H2 as (c0 & c1 & c2 & r2 & _ & -> & _).
  cbn [event_of_record MouseEvent.button MouseEvent.bLeft MouseEvent.bMiddle
       MouseEvent.bRight] in *.
  rewrite (land_low3 (int_of_byte b0) 1), (land_low3 (int_of_byte c0) 1),
    (land_low3 (int_of_byte b0) 4), (land_low3 (int_of_byte c0) 4),
    (land_low3 (int_of_byte b0) 2), (land_low3 (int_of_byte c0) 2)
    by reflexivity.
  now rewrite Hlow.
Qed.

Lemma flags_use_low_bits_witness :
  MouseEvent.bLeft (event_of_record (xfd, x01, x02)) =
    MouseEvent.bLeft (event_of_record (x05, x09, x00)) /\
  MouseEvent.bMiddle (event_of_record (xfd, x01, x02)) =
    MouseEvent.bMiddle (event_of_record (x05, x09, x00)) /\
  MouseEvent.bRight (event_of_record (xfd, x01, x02)) =
    MouseEvent.bRight (event_of_record (x05, x09, x00)).
Proof.
  apply (flags_use_low_bits
           (world_of [xfd; x01; x02] Eof []) (world_of [x05; x09; x00] Eof [])
           (event_of_record (xfd, x01, x02)) (event_of_record (x05, x09, x00))
           (world_of [] Eof [line_of_event (event_of_record (xfd, x01, x02))])
           (world_of [] Eof [line_of_event (event_of_record (x05, x09, x00))]));
    reflexivity.
Defined.

(** ** Ranges and injectivity of the decoding *)

(** X3.  Whatever the file holds, an event that a call decodes has its
    button value in [0, 255], [bLeft] equal to 0 or 1, and both deltas in
    [-128, 127]. *)
Theorem event_ranges (w : World) (ev : MouseEvent.t) (w' : World) :
  getMouseEvent w = (inr ev, w') ->
  0 <= MouseEvent.button ev <= 255 /\
  (MouseEvent.bLeft ev = 0 \/ MouseEvent.bLeft ev = 1) /\
  -128 <= MouseEvent.x ev <= 127 /\
  -128 <= MouseEvent.y ev <= 127.
Proof.
  intros Hcall.
  apply getMouseEvent_inv in Hcall as (b0 & b1 & b2 & rest & _ & -> & _).
  cbn [event_of_record MouseEvent.button MouseEvent.bLeft
       MouseEvent.x MouseEvent.y].
  pose proof (int_of_byte_range b0).
  repeat split; try apply unpack_b_range; try lia.
  rewrite land_1_b2z. destruct (negb _); [now right | now left].
Qed.

Lemma event_ranges_witness :
  0 <= MouseEvent.button (event_of_record (xff, x80, x7f)) <= 255 /\
  (MouseEvent.bLeft (event_of_record (xff, x80, x7f)) = 0 \/
   MouseEvent.bLeft (event_of_record (xff, x80, x7f)) = 1) /\
  -128 <= MouseEvent.x (event_of_record (xff, x80, x7f)) <= 127 /\
  -128 <= MouseEvent.y (event_of_record (xff, x80, x7f)) <= 127.
Proof.
  apply (event_ranges
           (world_of [xff; x80; x7f] Eof [])
           (event_of_record (xff, x80, x7f))
           (world_of [] Eof [line_of_event (event_of_record (xff, x80, x7f))])).
  reflexivity.
Defined.

(** X4.  Decoding loses nothing: two calls that decode the same event read
    the same three bytes. *)
Theorem decode_injective (w1 w2 : World) (ev : MouseEvent.t)
    (w1' w2' : World) :
  getMouseEvent w1 = (inr ev, w1') ->
  getMouseEvent w2 = (inr ev, w2') ->
  firstn 3 (pending (file w1)) = firstn 3 (pending (file w2)).
Proof.
  intros H1 H2.
  apply getMouseEvent_inv in H1 as (b0 & b1 & b2 & r1 & -> & E1 & _).
  apply getMouseEvent_inv in H2 as (c0 & c1 & c2 & r2 & -> & E2 & _).
  rewrite E1 in E2. cbn [event_of_record] in E2.
  injection E2 as Hb _ _ _ Hx Hy _ _.
  apply int_of_byte_inj in Hb. apply unpack_b_inj in Hx, Hy.
  now subst.
Qed.

Lemma decode_injective_witness :
  firstn 3 [x01; xfb; x03; x04] = firstn 3 [x01; xfb; x03].
Proof.
  apply (decode_injective
           (world_of [x01; xfb; x03; x04] Eof ["earlier"])
           (world_of [x01; xfb; x03] IoFailure [])
           (event_of_record (x01, xfb, x03))
           (world_of [x04] Eof
              ["earlier"; line_of_event (event_of_record (x01, xfb, x03))])
           (world_of [] IoFailure
              [line_of_event (event_of_record (x01, xfb, x03))]));
    reflexivity.
Defined.

(** ** The printed line *)

Lemma all_bytes_complete (b : byte) : In b all_bytes.
Proof.
  unfold all_bytes. apply in_map_iff.
  exists (N.to_nat (Byte.to_N b)). split.
  - now rewrite N2Nat.id, Byte.of_to_N.
  - apply in_seq. pose proof (Byte.to_N_bounded b). lia.
Qed.

Lemma reads_back_all :
  forallb (fun b1 => forallb (reads_back b1) all_bytes) all_bytes = true.
Proof. vm_compute. reflexivity. Qed.

(** The reader recovers the deltas from the line of any record. *)
Lemma deltas_of_line_record (b0 b1 b2 : byte) :
  deltas_of_line (line_of_event (event_of_record (b0, b1, b2))) =
  Some (unpack_b b1, unpack_b b2).
Proof.
  pose proof reads_back_all as Hall.
  rewrite forallb_forall in Hall.
  specialize (Hall b1 (all_bytes_complete b1)).
  rewrite forallb_forall in Hall.
  specialize (Hall b2 (all_bytes_complete b2)).
  unfold reads_back in Hall.
  change (line_of_event (event_of_record (b0, b1, b2)))
    with (line_of_event (event_of_record (x00, b1, b2))).
  destruct (deltas_of_line _) as [[x y] |]; [| discriminate].
  apply andb_true_iff in Hall as [Hx Hy].
  apply Z.eqb_eq in Hx, Hy. now subst.
Qed.

(** X5.  The printed line determines the motion bytes: two calls that
    print the same line read the same second and third byte. *)
Theorem line_determines_deltas (b0 b1 b2 c0 c1 c2 : byte)
    (rest rest' : list byte) (cl cl' : closing) (out : list string) :
  stdout (snd (getMouseEvent (world_of (b0 :: b1 :: b2 :: rest) cl out))) =
  stdout (snd (getMouseEvent (world_of (c0 :: c1 :: c2 :: rest') cl' out))) ->
  b1 = c1 /\ b2 = c2.
Proof.
  rewrite !getMouseEvent_record. cbn [snd world_of stdout].
  intros Hout. apply app_inv_head in Hout.
  assert (line_of_event (event_of_record (b0, b1, b2)) =
          line_of_event (event_of_record (c0, c1, c2))) as Hline
    by (injection Hout; auto).
  pose proof (deltas_of_line_record b0 b1 b2) as Hb.
  rewrite Hline, deltas_of_line_record in Hb.
  injection Hb as Hx Hy.
  split; apply unpack_b_inj; congruence.
Qed.

Lemma line_determines_deltas_witness : xfb = xfb /\ x03 = x03.
Proof.
  apply (line_determines_deltas x01 xfb x03 x06 xfb x03
           [x04] [] Eof IoFailure ["earlier"]).
  reflexivity.
Defined.

(** X6.  Whatever the glyphs, the values start in the same column: the
    line is five characters (glyph, space, glyph, two spaces) followed by
    [(x: <x>, y: <y>)]. *)
Theorem values_start_in_column_five (b0 b1 b2 : byte) (rest : list byte)
    (cl : closing) (out : list string) :
  exists ev pre,
    getMouseEvent (world_of (b0 :: b1 :: b2 :: rest) cl out) =
    (inr ev,
     world_of rest cl
       (out ++ [pre ++ "(x: " ++ str (MouseEvent.x ev) ++ ", y: "
                    ++ str (MouseEvent.y ev) ++ ")"])) /\
    utf8_length pre = 5%nat.
Proof.
  exists (event_of_record (b0, b1, b2)).
  exists (glyph "←" "→" (unpack_b b1) ++ " "
            ++ glyph "↑" "↓" (unpack_b b2) ++ "  ").
  rewrite getMouseEvent_record.
  unfold line_of_event, format.
  cbn [event_of_record MouseEvent.xarrow MouseEvent.yarrow
       MouseEvent.x MouseEvent.y].
  destruct (glyph_cases "←" "→" (unpack_b b1))
    as [[_ ->] | [[_ ->] | [_ ->]]];
  destruct (glyph_cases "↑" "↓" (unpack_b b2))
    as [[_ ->] | [[_ ->] | [_ ->]]];
  split; reflexivity.
Qed.

(** ** How long the loop runs *)

Lemma while_True_running (fuel : nat) :
  forall (l : list byte) (cl : closing) (out : list string),
    (fuel <= List.length (windows l))%nat ->
    while_True fuel (world_of l cl out) = None.
Proof.
  induction fuel as [| fuel IH]; intros l cl out Hfuel; [reflexivity |].
  destruct l as [| a [| b [| c l]]]; cbn [windows List.length] in Hfuel;
    try lia.
  rewrite while_True_S, getMouseEvent_record, IH by lia. reflexivity.
Qed.


(** ** Streams put end to end *)

Lemma mod3_step (n : nat) : (S (S (S n)) mod 3 = n mod 3)%nat.
Proof.
  change (S (S (S n))) with (3 + n)%nat.
  rewrite Nat.add_comm. apply (Nat.Div0.mod_add n 1 3).
Qed.

Lemma leftover_length (l : list byte) :
  List.length (leftover l) = (List.length l mod 3)%nat.
Proof.
  induction l as [| a | a b | a b c l IH] using list_ind3; try reflexivity.
  cbn [leftover List.length]. now rewrite mod3_step.
Qed.

Lemma windows_app (l1 l2 : list byte) :
  (List.length l1 mod 3 = 0)%nat ->
  windows (l1 ++ l2) = (windows l1 ++ windows l2)%list /\
  leftover (l1 ++ l2) = leftover l2.
Proof.
  induction l1 as [| a | a b | a b c l1 IH] using list_ind3; intros Hlen.
  - now split.
  - discriminate.
  - discriminate.
  - cbn [List.length] in Hlen. rewrite mod3_step in Hlen.
    destruct (IH Hlen) as [Hw Hl].
    cbn [app windows leftover]. rewrite Hw, Hl. now split.
Qed.

(** X8.  Runs compose at record boundaries: when [l1] is a whole number of
    records, running on [l1 ++ l2] decodes the events of [l1] and then does
    what a run on [l2] does, started with the output of the run on [l1]. *)
Theorem run_concat (l1 l2 : list byte) (cl : closing) (out : list string) :
  (List.length l1 mod 3 = 0)%nat ->
  while_True (S (List.length (l1 ++ l2) / 3)) (world_of (l1 ++ l2) cl out) =
  match while_True (S (List.length l1 / 3)) (world_of l1 Eof out) with
  | Some (evs1, _, w1) =>
      match while_True (S (List.length l2 / 3))
                       (world_of l2 cl (stdout w1)) with
      | Some (evs2, e, w2) => Some ((evs1 ++ evs2)%list, e, w2)
      | None => None
      end
  | None => None
  end.
Proof.
  intros Hlen.
  destruct (windows_app l1 l2 Hlen) as [Hw Hl].
  rewrite !while_True_run by (rewrite windows_length; lia).
  cbv beta iota. rewrite stdout_final_world.
  rewrite Hw, Hl, !map_app, app_assoc. reflexivity.
Qed.

Lemma run_concat_witness :
  while_True 3 (world_of [x01; xfb; x03; x04; x00; xfe; x00] Eof []) =
  Some ([event_of_record (x01, xfb, x03); event_of_record (x04, x00, xfe)],
        StructError,
        world_of [] Eof ["← ↓  (x: -5, y: 3)"; "  ↑  (x: 0, y: -2)"]).
Proof.
  exact (run_concat [x01; xfb; x03] [x04; x00; xfe; x00] Eof [] eq_refl).
Defined.

(** ** Which exception ends the program *)


